(** * PecuniaAI chat front end: the conversation controller

    A shallow embedding of [sendMessage] as written in
    [src/app/frontend/src/App.tsx] (component [App]) and in the [Chat]
    component carried by [src/app/frontend/src/components/custom/ChatInput.tsx],
    together with the React state they drive and the event loop that
    resumes them when the network call settles. The earlier revision of
    [App] kept in [src/unnamed/part_000] has the same [sendMessage]. *)

From Stdlib Require Import List String Ascii NArith ZArith Bool Lia.
From ExtLib Require Import Structures.Monad Structures.MonadExc.
Import ListNotations.
Import MonadNotation.
Local Open Scope monad_scope.
Local Open Scope list_scope.

Set Implicit Arguments.
Set Warnings "-register-all".

(** ** JavaScript strings *)

(** A JavaScript string is a sequence of UTF-16 code units. *)
Definition jsstring : Type := list N.

(** An ASCII literal of the source, as code units. *)
Definition str (s : string) : jsstring :=
  map N_of_ascii (list_ascii_of_string s).

Fixpoint jsstring_eqb (a b : jsstring) : bool :=
  match a, b with
  | [], [] => true
  | x :: a', y :: b' => N.eqb x y && jsstring_eqb a' b'
  | _, _ => false
  end.

(** [WhiteSpace] and [LineTerminator] of ECMAScript, the code units that
    [String.prototype.trim] strips: TAB, LF, VT, FF, CR, SP, NBSP, the
    space separators U+1680, U+2000..U+200A, U+202F, U+205F, U+3000, the
    separators U+2028 and U+2029, and U+FEFF. *)
Definition isWhiteSpace (c : N) : bool :=
  ((9 <=? c) && (c <=? 13) || (c =? 32) || (c =? 160) || (c =? 5760)
   || (8192 <=? c) && (c <=? 8202) || (c =? 8232) || (c =? 8233)
   || (c =? 8239) || (c =? 8287) || (c =? 12288) || (c =? 65279))%N.

Fixpoint trimStart (s : jsstring) : jsstring :=
  match s with
  | [] => []
  | c :: rest => if isWhiteSpace c then trimStart rest else s
  end.

Definition trimEnd (s : jsstring) : jsstring := rev (trimStart (rev s)).

(** [s.trim()] *)
Definition trim (s : jsstring) : jsstring := trimEnd (trimStart s).

(** [!s] on a string: true exactly on the empty string. *)
Definition not_string (s : jsstring) : bool :=
  match s with [] => true | _ :: _ => false end.

(** ** JavaScript values, as [JSON.parse] can build them *)

Inductive value : Type :=
| VUndefined
| VNull
| VBool (b : bool)
| VNum (n : Z)
| VStr (s : jsstring)
| VArr (items : list value)
| VObj (props : list (jsstring * value)).

(** What a rejected promise or a [throw] carries. *)
Inductive exn : Type :=
| TypeError
| SyntaxError
| AbortError
| OtherError (name : jsstring).

(** Own property of a parsed object; a later binding of the same key
    overrides an earlier one, as in [JSON.parse]. *)
Fixpoint own_property (key : jsstring) (props : list (jsstring * value)) : option value :=
  match props with
  | [] => None
  | (k, v) :: rest =>
      match own_property key rest with
      | Some later => Some later
      | None => if jsstring_eqb k key then Some v else None
      end
  end.

(** [data.answer]: reading a property of [null] or [undefined] throws a
    [TypeError]; a parsed object yields its own property or [undefined];
    booleans, numbers, strings and arrays have no property of that name. *)
Definition answer_of (data : value) : exn + value :=
  match data with
  | VUndefined | VNull => inl TypeError
  | VObj props =>
      match own_property (str "answer") props with
      | Some v => inr v
      | None => inr VUndefined
      end
  | VBool _ | VNum _ | VStr _ | VArr _ => inr VUndefined
  end.

(** ** Data model of the component *)

Inductive Role : Type := user | assistant.

(** [type Message = { role, content }]. The annotation says [content: string],
    but [data.answer] is stored unvalidated, so at run time it is any value. *)
Record Message : Type := { role : Role; content : value }.

(** The three [useState] cells of the component. *)
Record State : Type := {
  messages : list Message;
  input : jsstring;
  loading : bool
}.

(** The argument of [fetch]; [body] is the object handed to [JSON.stringify]. *)
Record Request : Type := {
  url : jsstring;
  method : jsstring;
  headers : list (jsstring * jsstring);
  body : value
}.

(** What [fetch] resolves to: the HTTP status, and what [res.json()] settles
    to, a rejection or the parsed body. [fetch] resolves on every status. *)
Record Response : Type := {
  status : N;
  json : exn + value
}.

(** [res.ok] *)
Definition ok (res : Response) : bool :=
  ((200 <=? status res) && (status res <=? 299))%N.

(** ** Asynchronous functions

    The body of an [async] function: state setters, and the two points where
    it awaits a promise and is resumed later with the promise's outcome. *)
Inductive Async (A : Type) : Type :=
| Ret (a : A)
| Throw (e : exn)
| SetMessages (f : list Message -> list Message) (k : Async A)
| SetInput (v : jsstring) (k : Async A)
| SetLoading (b : bool) (k : Async A)
| AwaitFetch (rq : Request) (k : exn + Response -> Async A)
| AwaitJson (res : Response) (k : exn + value -> Async A).

Arguments Ret {A} a.
Arguments Throw {A} e.

Fixpoint abind {A B : Type} (p : Async A) (f : A -> Async B) : Async B :=
  match p with
  | Ret a => f a
  | Throw e => Throw e
  | SetMessages g k => SetMessages g (abind k f)
  | SetInput v k => SetInput v (abind k f)
  | SetLoading b k => SetLoading b (abind k f)
  | AwaitFetch rq k => AwaitFetch rq (fun o => abind (k o) f)
  | AwaitJson res k => AwaitJson res (fun o => abind (k o) f)
  end.

(** [try { p } catch (err) { h err }] *)
Fixpoint try_catch {A : Type} (p : Async A) (h : exn -> Async A) : Async A :=
  match p with
  | Ret a => Ret a
  | Throw e => h e
  | SetMessages g k => SetMessages g (try_catch k h)
  | SetInput v k => SetInput v (try_catch k h)
  | SetLoading b k => SetLoading b (try_catch k h)
  | AwaitFetch rq k => AwaitFetch rq (fun o => try_catch (k o) h)
  | AwaitJson res k => AwaitJson res (fun o => try_catch (k o) h)
  end.

(** [try { p } finally { fin }]: [fin] runs however [p] completes, and the
    completion of [p] stands unless [fin] itself throws. *)
Fixpoint try_finally {A : Type} (p : Async A) (fin : Async unit) : Async A :=
  match p with
  | Ret a => abind fin (fun _ => Ret a)
  | Throw e => abind fin (fun _ => Throw e)
  | SetMessages g k => SetMessages g (try_finally k fin)
  | SetInput v k => SetInput v (try_finally k fin)
  | SetLoading b k => SetLoading b (try_finally k fin)
  | AwaitFetch rq k => AwaitFetch rq (fun o => try_finally (k o) fin)
  | AwaitJson res k => AwaitJson res (fun o => try_finally (k o) fin)
  end.

#[global] Instance Monad_Async : Monad Async :=
  {| ret := @Ret; bind := @abind |}.

#[global] Instance Exc_Async : MonadExc exn Async :=
  {| raise := @Throw; catch := @try_catch |}.

(** A settled promise, awaited: its value, or its rejection thrown. *)
Definition settled {A : Type} (o : exn + A) : Async A :=
  match o with
  | inl e => raise e
  | inr a => ret a
  end.

Definition setMessages (f : list Message -> list Message) : Async unit :=
  SetMessages f (Ret tt).
Definition setInput (v : jsstring) : Async unit := SetInput v (Ret tt).
Definition setLoading (b : bool) : Async unit := SetLoading b (Ret tt).

(** [await fetch(url, init)] *)
Definition fetch (rq : Request) : Async Response := AwaitFetch rq settled.

(** [await res.json()] *)
Definition res_json (res : Response) : Async value := AwaitJson res settled.

(** The request both components send. *)
Definition chat_request (query : jsstring) : Request :=
  {| url := str "http://localhost:8000/chat";
     method := str "POST";
     headers := [(str "Content-Type", str "application/json")];
     body := VObj [(str "query", VStr query)] |}.

Definition error_text : jsstring := str "Error: Could not get response.".

(** ** The two components' [sendMessage]

    [sendMessage] is a closure of one render: [input] is the value the
    [input] cell had at that render, and stays so after [setInput]. *)
Module App.

Definition sendMessage (input : jsstring) : Async unit :=
  if not_string (trim input) then ret tt
  else
    let userMessage := {| role := user; content := VStr input |} in
    setMessages (fun prev => prev ++ [userMessage]) ;;
    setInput (str "") ;;
    setLoading true ;;
    try_finally
      (catch
         (res <- fetch (chat_request input) ;;
          data <- res_json res ;;
          answer <- settled (answer_of data) ;;
          let assistantMessage := {| role := assistant; content := answer |} in
          setMessages (fun prev => prev ++ [assistantMessage]))
         (fun err =>
            setMessages (fun prev =>
              prev ++ [{| role := assistant; content := VStr error_text |}])))
      (setLoading false).

End App.

Module Chat.

Definition sendMessage (input : jsstring) : Async unit :=
  if not_string (trim input) then ret tt
  else
    let userMessage := {| role := user; content := VStr input |} in
    setMessages (fun prev => prev ++ [userMessage]) ;;
    setInput (str "") ;;
    setLoading true ;;
    res <- fetch (chat_request input) ;;
    data <- res_json res ;;
    answer <- settled (answer_of data) ;;
    setMessages (fun prev => prev ++ [{| role := assistant; content := answer |}]) ;;
    setLoading false.

End Chat.

(** ** The session: component state and the calls in flight *)

(** A suspended [sendMessage]: the promise it awaits and what it does next. *)
Inductive Task : Type :=
| FetchPending (rq : Request) (k : exn + Response -> Async unit)
| JsonPending (res : Response) (k : exn + value -> Async unit).

(** [sent] logs every [fetch] issued; [unhandled] logs the rejections of
    [sendMessage]'s own promise, which [onSend] never awaits. *)
Record Session : Type := {
  ui : State;
  inflight : list Task;
  sent : list Request;
  unhandled : list exn
}.

Definition set_messages (f : list Message -> list Message) (s : Session) : Session :=
  {| ui := {| messages := f (messages (ui s));
              input := input (ui s);
              loading := loading (ui s) |};
     inflight := inflight s; sent := sent s; unhandled := unhandled s |}.

Definition set_input (v : jsstring) (s : Session) : Session :=
  {| ui := {| messages := messages (ui s); input := v; loading := loading (ui s) |};
     inflight := inflight s; sent := sent s; unhandled := unhandled s |}.

Definition set_loading (b : bool) (s : Session) : Session :=
  {| ui := {| messages := messages (ui s); input := input (ui s); loading := b |};
     inflight := inflight s; sent := sent s; unhandled := unhandled s |}.

Definition set_inflight (ts : list Task) (s : Session) : Session :=
  {| ui := ui s; inflight := ts; sent := sent s; unhandled := unhandled s |}.

(** Runs an asynchronous body up to its next [await] (or to its end). The
    setters are applied in program order; [sendMessage] never reads the cells
    back, so this agrees with React applying the queued updates at the next
    render. *)
Fixpoint exec (p : Async unit) (s : Session) : Session :=
  match p with
  | Ret _ => s
  | Throw e =>
      {| ui := ui s; inflight := inflight s; sent := sent s;
         unhandled := unhandled s ++ [e] |}
  | SetMessages f k => exec k (set_messages f s)
  | SetInput v k => exec k (set_input v s)
  | SetLoading b k => exec k (set_loading b s)
  | AwaitFetch rq k =>
      {| ui := ui s; inflight := inflight s ++ [FetchPending rq k];
         sent := sent s ++ [rq]; unhandled := unhandled s |}
  | AwaitJson res k =>
      {| ui := ui s; inflight := inflight s ++ [JsonPending res k];
         sent := sent s; unhandled := unhandled s |}
  end.

(** Removes the [i]-th task in flight. *)
Fixpoint take_task (i : nat) (ts : list Task) : option (Task * list Task) :=
  match ts, i with
  | [], _ => None
  | t :: rest, O => Some (t, rest)
  | t :: rest, S j =>
      match take_task j rest with
      | Some (x, rest') => Some (x, t :: rest')
      | None => None
      end
  end.

(** What the event loop delivers: the form's [onChange] and [onSubmit], and
    the settling of an awaited promise. A fetch settles as the network
    decides; [res.json()] settles as the response's body decides. *)
Inductive Event : Type :=
| Change (v : jsstring)
| Submit
| FetchSettled (i : nat) (o : exn + Response)
| JsonSettled (i : nat).

Definition initial : Session :=
  {| ui := {| messages := []; input := str ""; loading := false |};
     inflight := []; sent := []; unhandled := [] |}.

Section Controller.

(** The component's [sendMessage], closed over the rendered [input]. *)
Variable sendMessage : jsstring -> Async unit.

Definition handle (s : Session) (ev : Event) : option Session :=
  match ev with
  | Change v => Some (set_input v s)
  | Submit => Some (exec (sendMessage (input (ui s))) s)
  | FetchSettled i o =>
      match take_task i (inflight s) with
      | Some (FetchPending _ k, rest) => Some (exec (k o) (set_inflight rest s))
      | _ => None
      end
  | JsonSettled i =>
      match take_task i (inflight s) with
      | Some (JsonPending res k, rest) =>
          Some (exec (k (json res)) (set_inflight rest s))
      | _ => None
      end
  end.

Fixpoint run (s : Session) (evs : list Event) : option Session :=
  match evs with
  | [] => Some s
  | ev :: rest =>
      match handle s ev with
      | Some s' => run s' rest
      | None => None
      end
  end.

(** [ChatInput] is rendered with [disabled = loading]: the form delivers no
    submission while the component is loading. (Its text field is disabled
    as well; edits are left free here, nothing below depends on them.) *)
Definition deliverable (s : Session) (ev : Event) : bool :=
  match ev with
  | Submit => negb (loading (ui s))
  | Change _ | FetchSettled _ _ | JsonSettled _ => true
  end.

Fixpoint through_form (s : Session) (evs : list Event) : bool :=
  match evs with
  | [] => true
  | ev :: rest =>
      deliverable s ev &&
      match handle s ev with
      | Some s' => through_form s' rest
      | None => false
      end
  end.

End Controller.

Unset Implicit Arguments.

(** ** Vocabulary of the statements *)

Definition user_message (text : jsstring) : Message :=
  {| role := user; content := VStr text |}.

Definition assistant_message (c : value) : Message :=
  {| role := assistant; content := c |}.

(** The fixed notice of the [catch] branch. *)
Definition error_message : Message := assistant_message (VStr error_text).

(** The session right after the synchronous part of a submission of [text],
    with [k] the rest of [sendMessage] waiting on the fetch. *)
Definition submitted (text : jsstring) (k : exn + Response -> Async unit)
    (s : Session) : Session :=
  {| ui := {| messages := messages (ui s) ++ [user_message text];
              input := str "";
              loading := true |};
     inflight := inflight s ++ [FetchPending (chat_request text) k];
     sent := sent s ++ [chat_request text];
     unhandled := unhandled s |}.

(** The session once a submission of [text] has run to its end and appended
    [reply]: nothing is left in flight for it, one request was sent, and
    nothing was rejected towards the caller. *)
Definition completed (text : jsstring) (reply : Message) (s : Session) : Session :=
  {| ui := {| messages := messages (ui s) ++ [user_message text; reply];
              input := str "";
              loading := false |};
     inflight := inflight s;
     sent := sent s ++ [chat_request text];
     unhandled := unhandled s |}.

(** The ways a call can fail: [fetch] rejects; [res.json()] rejects (a body
    that is not JSON, or one that cannot be read); the body parses to [null],
    so that reading [data.answer] throws. *)
Inductive Failure : Type :=
| FetchRejected (e : exn)
| JsonRejected (st : N) (e : exn)
| NullBody (st : N).

(** The events by which the [i]-th call in flight fails that way. *)
Definition failing (i : nat) (f : Failure) : list Event :=
  match f with
  | FetchRejected e => [FetchSettled i (inl e)]
  | JsonRejected st e =>
      [FetchSettled i (inr {| status := st; json := inl e |}); JsonSettled i]
  | NullBody st =>
      [FetchSettled i (inr {| status := st; json := inr VNull |}); JsonSettled i]
  end.

(** The events by which the [i]-th call in flight is answered with [res]. *)
Definition answered (i : nat) (res : Response) : list Event :=
  [FetchSettled i (inr res); JsonSettled i].

(** The assistant message [App.sendMessage] appends once [res.json()] has
    settled to [o]. *)
Definition reply_of (o : exn + value) : Message :=
  match o with
  | inl _ => error_message
  | inr data =>
      match answer_of data with
      | inl _ => error_message
      | inr a => assistant_message a
      end
  end.

(** The last steps of [App.sendMessage]: append [reply], then [finally]. *)
Definition finish (reply : Message) (s : Session) : Session :=
  set_loading false (set_messages (fun prev => prev ++ [reply]) s).

(** Continuations that behave as the rest of [App.sendMessage] does. *)
Definition json_rest (k : exn + value -> Async unit) : Prop :=
  forall o s, exec (k o) s = finish (reply_of o) s.

Definition fetch_rest (k : exn + Response -> Async unit) : Prop :=
  (forall e s, exec (k (inl e)) s = finish error_message s) /\
  (forall res s, exists k',
      json_rest k' /\
      exec (k (inr res)) s =
        {| ui := ui s; inflight := inflight s ++ [JsonPending res k'];
           sent := sent s; unhandled := unhandled s |}).

Definition app_task (t : Task) : Prop :=
  match t with
  | FetchPending _ k => fetch_rest k
  | JsonPending _ k => json_rest k
  end.

(** Sessions in which every call in flight was issued by [App.sendMessage]. *)
Definition app_session (s : Session) : Prop := Forall app_task (inflight s).

(** Sessions as the rendered form allows them: at most one call in flight,
    and [loading] set exactly when there is one. *)
Definition single_flight (s : Session) : Prop :=
  app_session s /\
  List.length (inflight s) <= 1 /\
  (loading (ui s) = true <-> inflight s <> []).

Definition hello : jsstring := str "Hello".

Definition padded : jsstring := str "  X  ".

Definition answering (st : N) (a : value) : Response :=
  {| status := st; json := inr (VObj [(str "answer", a)]) |}.

(** The promise of [sendMessage] rejects with [e]; nobody handles it. *)
Definition reject (e : exn) (s : Session) : Session :=
  {| ui := ui s; inflight := inflight s; sent := sent s;
     unhandled := unhandled s ++ [e] |}.

(** Continuations that behave as the rest of [Chat.sendMessage] does: no
    handler, so a rejection or a throw ends the function where it stands. *)
Definition chat_json_rest (k : exn + value -> Async unit) : Prop :=
  forall o s,
    exec (k o) s =
      match o with
      | inl e => reject e s
      | inr data =>
          match answer_of data with
          | inl e => reject e s
          | inr a => finish (assistant_message a) s
          end
      end.

Definition chat_fetch_rest (k : exn + Response -> Async unit) : Prop :=
  (forall e s, exec (k (inl e)) s = reject e s) /\
  (forall res s, exists k',
      chat_json_rest k' /\
      exec (k (inr res)) s =
        {| ui := ui s; inflight := inflight s ++ [JsonPending res k'];
           sent := sent s; unhandled := unhandled s |}).



(** The transitions of a session driven by [App.sendMessage], by kind: an
    edit of the draft, a rejected (blank) submission, an accepted one, and the
    three ways an awaited promise hands control back. *)
Inductive app_step (s : Session) : Event -> Session -> Prop :=
| step_change (v : jsstring) :
    app_step s (Change v) (set_input v s)
| step_blank :
    trim (input (ui s)) = [] ->
    app_step s Submit s
| step_submit (k : exn + Response -> Async unit) :
    trim (input (ui s)) <> [] ->
    fetch_rest k ->
    app_step s Submit (submitted (input (ui s)) k s)
| step_fetch_rejected (i : nat) (rq : Request) (k : exn + Response -> Async unit)
    (rest : list Task) (e : exn) :
    take_task i (inflight s) = Some (FetchPending rq k, rest) ->
    app_step s (FetchSettled i (inl e))
      (finish error_message (set_inflight rest s))
| step_fetch_resolved (i : nat) (rq : Request) (k : exn + Response -> Async unit)
    (rest : list Task) (res : Response) (k' : exn + value -> Async unit) :
    take_task i (inflight s) = Some (FetchPending rq k, rest) ->
    json_rest k' ->
    app_step s (FetchSettled i (inr res))
      {| ui := ui s; inflight := rest ++ [JsonPending res k'];
         sent := sent s; unhandled := unhandled s |}
| step_json (i : nat) (res : Response) (k : exn + value -> Async unit)
    (rest : list Task) :
    take_task i (inflight s) = Some (JsonPending res k, rest) ->
    app_step s (JsonSettled i)
      (finish (reply_of (json res)) (set_inflight rest s)).

(** ** The rendered interface

    [ChatInput] as written in [components/custom/ChatInput.tsx]: a form whose
    field and button both carry [disabled], whose field reports each edit
    through [onChange (e.target.value)], and whose submission first calls
    [e.preventDefault ()] and then [onSend ()]. Callbacks act on a world [W]. *)
Module ChatInput.

Record Props (W : Type) : Type := {
  value : jsstring;
  onChange : jsstring -> W -> W;
  onSend : W -> W;
  disabled : bool
}.

Arguments value {W} _.
Arguments onChange {W} _ _ _.
Arguments onSend {W} _ _.
Arguments disabled {W} _.

(** The rendered form. [form_onSubmit] returns the event's [defaultPrevented]
    flag beside the world its handler leaves. *)
Record Form (W : Type) : Type := {
  input_value : jsstring;
  input_disabled : bool;
  input_onChange : jsstring -> W -> W;
  button_disabled : bool;
  form_onSubmit : W -> bool * W
}.

Arguments input_value {W} _.
Arguments input_disabled {W} _.
Arguments input_onChange {W} _ _ _.
Arguments button_disabled {W} _.
Arguments form_onSubmit {W} _ _.

Definition ChatInput {W : Type} (p : Props W) : Form W :=
  {| input_value := value p;
     input_disabled := disabled p;
     input_onChange := fun v => onChange p v;
     button_disabled := disabled p;
     form_onSubmit := fun w => (true, onSend p w) |}.

(** The browser's part. [Input] and [Button] hand [disabled] to the native
    controls: a disabled field takes no edit, and a form whose submit button
    is disabled is not submitted, by click or by Enter. A submission whose
    default is not prevented navigates, which starts the page afresh. *)
Definition types {W : Type} (f : Form W) (v : jsstring) (w : W) : W :=
  if input_disabled f then w else input_onChange f v w.

Definition submits {W : Type} (afresh : W) (f : Form W) (w : W) : W :=
  if button_disabled f then w
  else
    let (prevented, w') := form_onSubmit f w in
    if prevented then w' else afresh.

End ChatInput.

(** What the component puts inside [ChatContainer]. *)
Inductive Child : Type :=
| MessageBubble (key : nat) (role : Role) (content : value)
| ChatLoader
| ScrollAnchor.

(** What the component returns, as far as it depends on the state: the
    children of [ChatContainer] and the props of [ChatInput]. *)
Record View : Type := {
  container : list Child;
  chatInput : ChatInput.Props Session
}.

(** [l.map((x, idx) => f x idx)], counting from [idx]. *)
Fixpoint map_indexed {A B : Type} (f : A -> nat -> B) (idx : nat) (l : list A) : list B :=
  match l with
  | [] => []
  | x :: rest => f x idx :: map_indexed f (S idx) rest
  end.

(** What the user and the network do to the page. *)
Inductive Action : Type :=
| UserTypes (v : jsstring)
| UserSubmits
| FetchSettles (i : nat) (o : exn + Response)
| JsonSettles (i : nat).

Section Interface.

Variable sendMessage : jsstring -> Async unit.

(** The component's [return (...)] for the state [st]: one bubble per message
    keyed by its index, the loader when [loading], the scroll anchor; and
    [ChatInput] with the draft, [setInput], the [sendMessage] of this render
    and [disabled = loading]. *)
Definition view (st : State) : View :=
  {| container :=
       map_indexed (fun msg idx => MessageBubble idx (role msg) (content msg))
         0 (messages st)
       ++ (if loading st then [ChatLoader] else [])
       ++ [ScrollAnchor];
     chatInput :=
       {| ChatInput.value := input st;
          ChatInput.onChange := set_input;
          ChatInput.onSend := fun s => exec (sendMessage (input st)) s;
          ChatInput.disabled := loading st |} |}.

(** One action on the page as last rendered. *)
Definition act (s : Session) (a : Action) : option Session :=
  match a with
  | UserTypes v =>
      Some (ChatInput.types (ChatInput.ChatInput (chatInput (view (ui s)))) v s)
  | UserSubmits =>
      Some (ChatInput.submits initial
              (ChatInput.ChatInput (chatInput (view (ui s)))) s)
  | FetchSettles i o => handle sendMessage s (FetchSettled i o)
  | JsonSettles i => handle sendMessage s (JsonSettled i)
  end.

Fixpoint acts (s : Session) (l : list Action) : option Session :=
  match l with
  | [] => Some s
  | a :: rest =>
      match act s a with
      | Some s' => acts s' rest
      | None => None
      end
  end.

End Interface.

(** ** Accounts of a history *)

Definition role_eqb (a b : Role) : bool :=
  match a, b with
  | user, user | assistant, assistant => true
  | _, _ => false
  end.

Definition count_role (r : Role) (l : list Message) : nat :=
  List.length (filter (fun m => role_eqb (role m) r) l).

(** The texts of the user messages, in order. *)
Definition user_texts (l : list Message) : list jsstring :=
  flat_map (fun m =>
              match role m, content m with
              | user, VStr text => [text]
              | _, _ => []
              end) l.

(** A history made of question and answer pairs. *)
Fixpoint paired (l : list Message) : bool :=
  match l with
  | [] => true
  | [_] => false
  | u :: a :: rest =>
      role_eqb (role u) user && role_eqb (role a) assistant && paired rest
  end.

(** A user message as [sendMessage] records one: a string, not blank. *)
Definition typed_message (m : Message) : Prop :=
  role m = user -> exists text, content m = VStr text /\ trim text <> [].

(** The history of a session through the form: pairs, and the pending
    question after them while the component is loading. *)
Definition history_in_pairs (s : Session) : Prop :=
  if loading (ui s)
  then exists l text,
         messages (ui s) = l ++ [user_message text] /\ paired l = true
  else paired (messages (ui s)) = true.

(** What every session of [App] keeps, however it is driven. *)
Definition accounted (s : Session) : Prop :=
  sent s = map chat_request (user_texts (messages (ui s))) /\
  count_role assistant (messages (ui s)) + List.length (inflight s)
  = count_role user (messages (ui s)) /\
  unhandled s = [] /\
  Forall typed_message (messages (ui s)).


(** ** Strings *)

Lemma trimStart_nil_iff (s : jsstring) :
  trimStart s = [] <-> forallb isWhiteSpace s = true.
Proof.
  induction s as [|c rest IH]; simpl.
  - split; reflexivity.
  - destruct (isWhiteSpace c); simpl.
    + exact IH.
    + split; discriminate.
Qed.

Lemma trimStart_fixed (s : jsstring) :
  forallb isWhiteSpace (trimStart s) = true -> trimStart s = [].
Proof.
  induction s as [|c rest IH]; simpl; [reflexivity|].
  destruct (isWhiteSpace c) eqn:E; [exact IH|].
  simpl. rewrite E. discriminate.
Qed.

Lemma forallb_rev {A : Type} (f : A -> bool) (l : list A) :
  forallb f (rev l) = forallb f l.
Proof.
  induction l as [|a l IH]; simpl; [reflexivity|].
  rewrite forallb_app, IH. simpl. rewrite andb_true_r. apply andb_comm.
Qed.

(** [!text.trim()] holds exactly on the strings made of white space only
    (the empty string among them). *)
Lemma trim_blank_iff (text : jsstring) :
  trim text = [] <-> forallb isWhiteSpace text = true.
Proof.
  unfold trim, trimEnd. split.
  - intros H. apply trimStart_nil_iff. apply trimStart_fixed.
    rewrite <- forallb_rev. apply trimStart_nil_iff.
    apply (f_equal (@rev N)) in H. rewrite rev_involutive in H. exact H.
  - intros H. apply trimStart_nil_iff in H. rewrite H. reflexivity.
Qed.

Lemma not_string_trim (text : jsstring) :
  not_string (trim text) = forallb isWhiteSpace text.
Proof.
  destruct (forallb isWhiteSpace text) eqn:E.
  - apply trim_blank_iff in E. rewrite E. reflexivity.
  - destruct (trim text) eqn:T; [|reflexivity].
    apply trim_blank_iff in T. congruence.
Qed.

Lemma not_string_nonblank (text : jsstring) :
  trim text <> [] -> not_string (trim text) = false.
Proof. destruct (trim text); [congruence | reflexivity]. Qed.

(** ** One run of [App.sendMessage] *)

Lemma blank_submit (text : jsstring) (s : Session) :
  trim text = [] -> exec (App.sendMessage text) s = s.
Proof.
  intros H. unfold App.sendMessage. rewrite H. reflexivity.
Qed.

Lemma nonblank_submit (text : jsstring) (s : Session) :
  trim text <> [] ->
  exists k, fetch_rest k /\ exec (App.sendMessage text) s = submitted text k s.
Proof.
  intros H. unfold App.sendMessage. rewrite (not_string_nonblank text H).
  cbn. eexists. split; [|reflexivity].
  split.
  - intros e s'. reflexivity.
  - intros res s'. cbn. eexists. split; [|reflexivity].
    intros [e|data] s''; cbn; [reflexivity|].
    unfold reply_of. destruct (answer_of data); reflexivity.
Qed.

(** ** Calls in flight *)

Lemma take_task_last (ts : list Task) (t : Task) :
  take_task (List.length ts) (ts ++ [t]) = Some (t, ts).
Proof.
  induction ts as [|x ts IH]; simpl; [reflexivity|].
  rewrite IH. reflexivity.
Qed.

Lemma take_task_split (i : nat) (ts : list Task) (t : Task) (rest : list Task) :
  take_task i ts = Some (t, rest) ->
  exists pre post, ts = pre ++ t :: post /\ rest = pre ++ post.
Proof.
  revert i rest. induction ts as [|x ts IH]; intros i rest; simpl.
  - destruct i; discriminate.
  - destruct i as [|j]; simpl.
    + intros H. inversion H; subst. exists [], rest. split; reflexivity.
    + destruct (take_task j ts) as [[y rest']|] eqn:E; [|discriminate].
      intros H. inversion H; subst.
      destruct (IH _ _ E) as (pre & post & -> & ->).
      exists (x :: pre), post. split; reflexivity.
Qed.

Lemma take_task_Forall (P : Task -> Prop) (i : nat) (ts : list Task)
    (t : Task) (rest : list Task) :
  take_task i ts = Some (t, rest) -> Forall P ts -> P t /\ Forall P rest.
Proof.
  intros H F. destruct (take_task_split _ _ _ _ H) as (pre & post & -> & ->).
  apply Forall_app in F. destruct F as [Fpre Fpost].
  inversion Fpost; subst. split; [assumption|].
  apply Forall_app. split; assumption.
Qed.

Lemma take_task_length (i : nat) (ts : list Task) (t : Task) (rest : list Task) :
  take_task i ts = Some (t, rest) -> List.length ts = S (List.length rest).
Proof.
  intros H. destruct (take_task_split _ _ _ _ H) as (pre & post & -> & ->).
  rewrite !length_app. simpl. lia.
Qed.

Section Settling.

Variable sendMessage : jsstring -> Async unit.

Lemma settle_fetch_rejected (s : Session) (ts : list Task) (rq : Request)
    (k : exn + Response -> Async unit) (e : exn) :
  inflight s = ts ++ [FetchPending rq k] ->
  fetch_rest k ->
  handle sendMessage s (FetchSettled (List.length ts) (inl e))
  = Some (finish error_message (set_inflight ts s)).
Proof.
  intros E [Hrej _]. unfold handle. rewrite E, take_task_last, Hrej.
  reflexivity.
Qed.

Lemma settle_fetch_resolved (s : Session) (ts : list Task) (rq : Request)
    (k : exn + Response -> Async unit) (res : Response) :
  inflight s = ts ++ [FetchPending rq k] ->
  fetch_rest k ->
  exists k', json_rest k' /\
    handle sendMessage s (FetchSettled (List.length ts) (inr res))
    = Some {| ui := ui s; inflight := ts ++ [JsonPending res k'];
              sent := sent s; unhandled := unhandled s |}.
Proof.
  intros E [_ Hres]. unfold handle. rewrite E, take_task_last.
  destruct (Hres res (set_inflight ts s)) as (k' & Hk' & ->).
  exists k'. split; [assumption | reflexivity].
Qed.

Lemma settle_json (s : Session) (ts : list Task) (res : Response)
    (k : exn + value -> Async unit) :
  inflight s = ts ++ [JsonPending res k] ->
  json_rest k ->
  handle sendMessage s (JsonSettled (List.length ts))
  = Some (finish (reply_of (json res)) (set_inflight ts s)).
Proof.
  intros E Hk. unfold handle. rewrite E, take_task_last, Hk. reflexivity.
Qed.

(** A pending fetch of [App.sendMessage], answered with [res] and then
    read, ends by appending [reply_of (json res)]. *)
Lemma run_answered (s : Session) (ts : list Task) (rq : Request)
    (k : exn + Response -> Async unit) (res : Response) :
  inflight s = ts ++ [FetchPending rq k] ->
  fetch_rest k ->
  run sendMessage s (answered (List.length ts) res)
  = Some (finish (reply_of (json res)) (set_inflight ts s)).
Proof.
  intros E Hk. unfold answered, run.
  destruct (settle_fetch_resolved s ts rq k res E Hk) as (k' & Hk' & ->).
  rewrite (settle_json
             {| ui := ui s; inflight := ts ++ [JsonPending res k'];
                sent := sent s; unhandled := unhandled s |}
             ts res k' eq_refl Hk').
  reflexivity.
Qed.

(** A pending fetch of [App.sendMessage] that fails, in whichever way, ends
    by appending the fixed notice. *)
Lemma run_failing (s : Session) (ts : list Task) (rq : Request)
    (k : exn + Response -> Async unit) (f : Failure) :
  inflight s = ts ++ [FetchPending rq k] ->
  fetch_rest k ->
  run sendMessage s (failing (List.length ts) f)
  = Some (finish error_message (set_inflight ts s)).
Proof.
  intros E Hk. destruct f as [e|st e|st]; unfold failing.
  - unfold run. rewrite (settle_fetch_rejected s ts rq k e E Hk). reflexivity.
  - apply (run_answered s ts rq k {| status := st; json := inl e |} E Hk).
  - apply (run_answered s ts rq k {| status := st; json := inr VNull |} E Hk).
Qed.

End Settling.

(** ** A whole submission through [App.sendMessage] *)

Lemma finish_submitted (text : jsstring) (k : exn + Response -> Async unit)
    (reply : Message) (s : Session) :
  finish reply (set_inflight (inflight s) (submitted text k s))
  = completed text reply s.
Proof.
  unfold finish, completed, set_loading, set_messages, set_inflight, submitted.
  simpl. rewrite <- app_assoc. reflexivity.
Qed.

Lemma submit_then_answered (s : Session) (res : Response) :
  trim (input (ui s)) <> [] ->
  run App.sendMessage s (Submit :: answered (List.length (inflight s)) res)
  = Some (completed (input (ui s)) (reply_of (json res)) s).
Proof.
  intros H. destruct (nonblank_submit _ s H) as (k & Hk & E).
  change (run App.sendMessage s (Submit :: ?evs))
    with (run App.sendMessage (exec (App.sendMessage (input (ui s))) s) evs).
  rewrite E.
  rewrite (run_answered App.sendMessage (submitted (input (ui s)) k s)
             (inflight s) _ k res eq_refl Hk).
  rewrite finish_submitted. reflexivity.
Qed.

Lemma submit_then_failing (s : Session) (f : Failure) :
  trim (input (ui s)) <> [] ->
  run App.sendMessage s (Submit :: failing (List.length (inflight s)) f)
  = Some (completed (input (ui s)) error_message s).
Proof.
  intros H. destruct (nonblank_submit _ s H) as (k & Hk & E).
  change (run App.sendMessage s (Submit :: ?evs))
    with (run App.sendMessage (exec (App.sendMessage (input (ui s))) s) evs).
  rewrite E.
  rewrite (run_failing App.sendMessage (submitted (input (ui s)) k s)
             (inflight s) _ k f eq_refl Hk).
  rewrite finish_submitted. reflexivity.
Qed.

(** ** Every transition of the [App] session *)

Lemma initial_app_session : app_session initial.
Proof. constructor. Qed.

(** Each event the session accepts is one of the transitions of [app_step]. *)
Lemma handle_app_step (s : Session) (ev : Event) (s' : Session) :
  app_session s ->
  handle App.sendMessage s ev = Some s' ->
  app_step s ev s'.
Proof.
  intros Hs H. destruct ev as [v| |i o|i]; simpl in H.
  - inversion H; subst. constructor.
  - inversion H; subst. clear H.
    destruct (trim (input (ui s))) as [|c r] eqn:T.
    + rewrite (blank_submit _ s T). apply step_blank. exact T.
    + assert (Hn : trim (input (ui s)) <> []) by (rewrite T; discriminate).
      destruct (nonblank_submit _ s Hn) as (k & Hk & ->).
      apply step_submit; assumption.
  - destruct (take_task i (inflight s)) as [[[rq k|res k] rest]|] eqn:E;
      try discriminate.
    inversion H; subst. clear H.
    destruct (take_task_Forall app_task _ _ _ _ E Hs) as [[Hrej Hres] _].
    destruct o as [e|res].
    + rewrite Hrej. eapply step_fetch_rejected. exact E.
    + destruct (Hres res (set_inflight rest s)) as (k' & Hk' & ->).
      simpl. eapply step_fetch_resolved; eassumption.
  - destruct (take_task i (inflight s)) as [[[rq k|res k] rest]|] eqn:E;
      try discriminate.
    inversion H; subst. clear H.
    destruct (take_task_Forall app_task _ _ _ _ E Hs) as [Hk _].
    rewrite Hk. eapply step_json. exact E.
Qed.

Lemma app_step_session (s : Session) (ev : Event) (s' : Session) :
  app_session s -> app_step s ev s' -> app_session s'.
Proof.
  unfold app_session. intros Hs St.
  destruct St as [v| |k T Hk|i rq k rest e E|i rq k rest res k' E Hk'|i res k rest E];
    simpl; try assumption.
  - apply Forall_app. split; [assumption|]. constructor; [exact Hk|constructor].
  - apply (take_task_Forall app_task _ _ _ _ E Hs).
  - apply Forall_app. split.
    + apply (take_task_Forall app_task _ _ _ _ E Hs).
    + constructor; [exact Hk'|constructor].
  - apply (take_task_Forall app_task _ _ _ _ E Hs).
Qed.

Lemma run_app_session (evs : list Event) (s s' : Session) :
  app_session s -> run App.sendMessage s evs = Some s' -> app_session s'.
Proof.
  revert s. induction evs as [|ev evs IH]; intros s Hs; simpl.
  - intros H. inversion H; subst. exact Hs.
  - destruct (handle App.sendMessage s ev) as [s1|] eqn:E; [|discriminate].
    intros H. apply (IH s1); [|exact H].
    apply (app_step_session s ev s1 Hs). apply handle_app_step; assumption.
Qed.

(** A transition extends the message list by at most one message. *)
Lemma app_step_appends (s : Session) (ev : Event) (s' : Session) :
  app_step s ev s' ->
  exists added, messages (ui s') = messages (ui s) ++ added /\
                List.length added <= 1.
Proof.
  intros St. destruct St; simpl.
  - exists []. rewrite app_nil_r. split; [reflexivity | simpl; lia].
  - exists []. rewrite app_nil_r. split; [reflexivity | simpl; lia].
  - eexists. split; [reflexivity | simpl; lia].
  - eexists. split; [reflexivity | simpl; lia].
  - exists []. rewrite app_nil_r. split; [reflexivity | simpl; lia].
  - eexists. split; [reflexivity | simpl; lia].
Qed.

(** Under the form's gate a transition keeps the session single-flight. *)
Lemma app_step_single_flight (s : Session) (ev : Event) (s' : Session) :
  single_flight s ->
  deliverable s ev = true ->
  app_step s ev s' ->
  single_flight s'.
Proof.
  intros (Hs & Hlen & Hbusy) Hd St.
  split; [eapply app_step_session; eassumption|].
  destruct St as [v| |k T Hk|i rq k rest e E|i rq k rest res k' E Hk'|i res k rest E];
    simpl in *.
  - split; assumption.
  - split; assumption.
  - apply negb_true_iff in Hd.
    assert (E0 : inflight s = []).
    { destruct (inflight s) as [|t ts] eqn:E0; [reflexivity|].
      assert (loading (ui s) = true) by (apply Hbusy; discriminate). congruence. }
    rewrite E0. simpl. split; [lia|]. split; [discriminate | reflexivity].
  - pose proof (take_task_length _ _ _ _ E) as L.
    assert (R : rest = []) by (destruct rest; [reflexivity | simpl in L; lia]).
    subst rest. simpl. split; [lia|]. split; [discriminate | congruence].
  - pose proof (take_task_length _ _ _ _ E) as L.
    assert (R : rest = []) by (destruct rest; [reflexivity | simpl in L; lia]).
    subst rest. simpl. split; [lia|]. split; [discriminate|].
    intros _. apply Hbusy. intros C. rewrite C in E. destruct i; discriminate.
  - pose proof (take_task_length _ _ _ _ E) as L.
    assert (R : rest = []) by (destruct rest; [reflexivity | simpl in L; lia]).
    subst rest. simpl. split; [lia|]. split; [discriminate | congruence].
Qed.

Lemma initial_single_flight : single_flight initial.
Proof.
  split; [exact initial_app_session|]. simpl. split; [lia|].
  split; [discriminate | congruence].
Qed.

Lemma run_single_flight (evs : list Event) (s s' : Session) :
  single_flight s ->
  through_form App.sendMessage s evs = true ->
  run App.sendMessage s evs = Some s' ->
  single_flight s'.
Proof.
  revert s. induction evs as [|ev evs IH]; intros s Hs; simpl.
  - intros _ H. inversion H; subst. exact Hs.
  - destruct (handle App.sendMessage s ev) as [s1|] eqn:E;
      [|intros _; discriminate].
    intros Hf H. apply andb_true_iff in Hf. destruct Hf as [Hd Hf].
    apply (IH s1); [|exact Hf|exact H].
    apply (app_step_single_flight s ev s1 Hs Hd).
    apply handle_app_step; [apply Hs | exact E].
Qed.

(** ** The submit contract *)

(** C1: for every draft [text] whose trimmed form is not empty, submitting
    appends exactly the message [{role: user, content: text}], clears the
    draft to the empty string, sets [loading], and issues exactly one call,
    whose body is [{query: text}]; all of it while that call is still
    pending, and nothing is rejected towards the caller. *)
Theorem submit_appends_user_message_and_calls (s : Session) (text : jsstring) :
  input (ui s) = text ->
  trim text <> [] ->
  exists s' k,
    handle App.sendMessage s Submit = Some s' /\
    messages (ui s') = messages (ui s) ++ [user_message text] /\
    input (ui s') = str "" /\
    loading (ui s') = true /\
    sent s' = sent s ++ [chat_request text] /\
    body (chat_request text) = VObj [(str "query", VStr text)] /\
    inflight s' = inflight s ++ [FetchPending (chat_request text) k] /\
    unhandled s' = unhandled s.
Proof.
  intros <- H. destruct (nonblank_submit _ s H) as (k & _ & E).
  exists (submitted (input (ui s)) k s), k.
  split; [simpl; rewrite E; reflexivity|].
  repeat split; reflexivity.
Qed.

Lemma submit_appends_user_message_and_calls_hello :
  exists s' k,
    handle App.sendMessage (set_input hello initial) Submit = Some s' /\
    messages (ui s') = [] ++ [user_message hello] /\
    input (ui s') = str "" /\
    loading (ui s') = true /\
    sent s' = [] ++ [chat_request hello] /\
    body (chat_request hello) = VObj [(str "query", VStr hello)] /\
    inflight s' = [] ++ [FetchPending (chat_request hello) k] /\
    unhandled s' = [].
Proof.
  apply (submit_appends_user_message_and_calls (set_input hello initial) hello).
  - reflexivity.
  - vm_compute. discriminate.
Defined.

(** C5: a draft that is empty or made of white space only is rejected
    silently: the whole session (messages, draft, [loading], calls in flight,
    requests sent) is left as it was. *)
Theorem blank_submit_changes_nothing (s : Session) (text : jsstring) :
  input (ui s) = text ->
  forallb isWhiteSpace text = true ->
  handle App.sendMessage s Submit = Some s.
Proof.
  intros <- H. apply trim_blank_iff in H.
  simpl. rewrite (blank_submit _ s H). reflexivity.
Qed.

Lemma blank_submit_changes_nothing_spaces :
  handle App.sendMessage (set_input (str "  ") initial) Submit
  = Some (set_input (str "  ") initial).
Proof.
  apply (blank_submit_changes_nothing (set_input (str "  ") initial) (str "  ")).
  - reflexivity.
  - reflexivity.
Defined.

(** ** Resolution of the call *)

(** C2: whichever way the call fails ([fetch] rejects, the body is not JSON
    or cannot be read, reading the answer throws), the session ends with the
    user message followed by exactly one assistant message, the fixed notice
    "Error: Could not get response.", with [loading] false and nothing
    rejected towards the caller. *)
Theorem failed_call_appends_error_notice (s : Session) (text : jsstring)
    (f : Failure) :
  input (ui s) = text ->
  trim text <> [] ->
  run App.sendMessage s (Submit :: failing (List.length (inflight s)) f)
  = Some {| ui := {| messages :=
                       messages (ui s)
                       ++ [user_message text;
                           {| role := assistant;
                              content := VStr (str "Error: Could not get response.") |}];
                     input := str "";
                     loading := false |};
            inflight := inflight s;
            sent := sent s ++ [chat_request text];
            unhandled := unhandled s |}.
Proof.
  intros <- H. apply (submit_then_failing s f H).
Qed.

Lemma failed_call_appends_error_notice_hello :
  run App.sendMessage initial [Change hello; Submit; FetchSettled 0 (inl TypeError)]
  = Some {| ui := {| messages :=
                       [{| role := user; content := VStr (str "Hello") |};
                        {| role := assistant;
                           content := VStr (str "Error: Could not get response.") |}];
                     input := str "";
                     loading := false |};
            inflight := [];
            sent := [chat_request hello];
            unhandled := [] |}.
Proof.
  apply (failed_call_appends_error_notice (set_input hello initial) hello
           (FetchRejected TypeError)).
  - reflexivity.
  - vm_compute. discriminate.
Defined.

(** C4: when the call is answered, on whatever status, with the JSON body
    [{answer: a}], the session ends with the user message followed by exactly
    one assistant message whose content is [a]; the specification's case is
    [a = "42"]. *)
Theorem answer_is_appended_after_user_message (s : Session) (text : jsstring)
    (st : N) (a : value) :
  input (ui s) = text ->
  trim text <> [] ->
  run App.sendMessage s
    (Submit :: answered (List.length (inflight s)) (answering st a))
  = Some {| ui := {| messages :=
                       messages (ui s)
                       ++ [user_message text; {| role := assistant; content := a |}];
                     input := str "";
                     loading := false |};
            inflight := inflight s;
            sent := sent s ++ [chat_request text];
            unhandled := unhandled s |}.
Proof.
  intros <- H. apply (submit_then_answered s (answering st a) H).
Qed.

Lemma answer_is_appended_after_user_message_42 :
  run App.sendMessage initial
    [Change hello; Submit;
     FetchSettled 0 (inr {| status := 200;
                            json := inr (VObj [(str "answer", VStr (str "42"))]) |});
     JsonSettled 0]
  = Some {| ui := {| messages :=
                       [{| role := user; content := VStr (str "Hello") |};
                        {| role := assistant; content := VStr (str "42") |}];
                     input := str "";
                     loading := false |};
            inflight := [];
            sent := [chat_request hello];
            unhandled := [] |}.
Proof.
  apply (answer_is_appended_after_user_message (set_input hello initial) hello
           200 (VStr (str "42"))).
  - reflexivity.
  - vm_compute. discriminate.
Defined.

(** ** The loading flag *)

(** C3: in every session reached through the form (which delivers no
    submission while [loading]), [loading] is true exactly while a call is in
    flight. And from such a session that is idle with a non-blank draft, a
    submission sets [loading]; it stays set while the response's body is
    being read; and once the call has resolved, by an answer or by any
    failure, [loading] is false and nothing is left in flight. *)
Theorem loading_exactly_while_call_in_flight (evs : list Event) (s : Session) :
  through_form App.sendMessage initial evs = true ->
  run App.sendMessage initial evs = Some s ->
  (loading (ui s) = true <-> inflight s <> []) /\
  (loading (ui s) = false ->
   trim (input (ui s)) <> [] ->
   (exists s1,
       run App.sendMessage s [Submit] = Some s1 /\
       loading (ui s1) = true /\ List.length (inflight s1) = 1) /\
   (forall res, exists s2 s3,
       run App.sendMessage s [Submit; FetchSettled 0 (inr res)] = Some s2 /\
       loading (ui s2) = true /\ List.length (inflight s2) = 1 /\
       run App.sendMessage s (Submit :: answered 0 res) = Some s3 /\
       loading (ui s3) = false /\ inflight s3 = []) /\
   (forall f, exists s3,
       run App.sendMessage s (Submit :: failing 0 f) = Some s3 /\
       loading (ui s3) = false /\ inflight s3 = [])).
Proof.
  intros Hf Hr.
  destruct (run_single_flight evs initial s initial_single_flight Hf Hr)
    as (_ & _ & Hbusy).
  split; [exact Hbusy|].
  intros Hidle Hn.
  assert (E0 : inflight s = []).
  { destruct (inflight s) as [|t ts] eqn:E0; [reflexivity|].
    assert (loading (ui s) = true) by (apply Hbusy; discriminate). congruence. }
  destruct (nonblank_submit _ s Hn) as (k & Hk & E).
  assert (Hs1 : handle App.sendMessage s Submit
                = Some (submitted (input (ui s)) k s))
    by (simpl; rewrite E; reflexivity).
  assert (I1 : inflight (submitted (input (ui s)) k s)
               = [] ++ [FetchPending (chat_request (input (ui s))) k])
    by (simpl; rewrite E0; reflexivity).
  split; [|split].
  - exists (submitted (input (ui s)) k s).
    split; [unfold run; rewrite Hs1; reflexivity|].
    split; [reflexivity|]. rewrite I1. reflexivity.
  - intros res.
    destruct (settle_fetch_resolved App.sendMessage _ [] _ k res I1 Hk)
      as (k' & _ & Hs2).
    pose proof (submit_then_answered s res Hn) as Hs3. rewrite E0 in Hs3.
    eexists. eexists.
    split; [unfold run; rewrite Hs1; simpl List.length in Hs2; rewrite Hs2;
            reflexivity|].
    split; [reflexivity|]. split; [reflexivity|].
    split; [exact Hs3|]. split; [reflexivity | exact E0].
  - intros f.
    pose proof (submit_then_failing s f Hn) as Hs3. rewrite E0 in Hs3.
    eexists. split; [exact Hs3|]. split; [reflexivity | exact E0].
Qed.

Lemma loading_exactly_while_call_in_flight_hello :
  (loading (ui (set_input hello (completed hello error_message (set_input hello initial))))
   = true <->
   inflight (set_input hello (completed hello error_message (set_input hello initial)))
   <> []) /\
  (exists s1,
      run App.sendMessage
        (set_input hello (completed hello error_message (set_input hello initial)))
        [Submit] = Some s1 /\
      loading (ui s1) = true /\ List.length (inflight s1) = 1) /\
  (forall res, exists s2 s3,
      run App.sendMessage
        (set_input hello (completed hello error_message (set_input hello initial)))
        [Submit; FetchSettled 0 (inr res)] = Some s2 /\
      loading (ui s2) = true /\ List.length (inflight s2) = 1 /\
      run App.sendMessage
        (set_input hello (completed hello error_message (set_input hello initial)))
        (Submit :: answered 0 res) = Some s3 /\
      loading (ui s3) = false /\ inflight s3 = []) /\
  (forall f, exists s3,
      run App.sendMessage
        (set_input hello (completed hello error_message (set_input hello initial)))
        (Submit :: failing 0 f) = Some s3 /\
      loading (ui s3) = false /\ inflight s3 = []).
Proof.
  destruct (loading_exactly_while_call_in_flight
              [Change hello; Submit; FetchSettled 0 (inl TypeError); Change hello]
              (set_input hello (completed hello error_message (set_input hello initial)))
              eq_refl eq_refl)
    as [Hbusy Hcycle].
  split; [exact Hbusy|].
  apply Hcycle.
  - reflexivity.
  - vm_compute. discriminate.
Defined.

(** The gate matters: the component itself does not hold back a second
    submission, and once two calls overlap the first to settle clears
    [loading] while the other is still in flight. *)
Lemma ungated_submissions_overlap :
  through_form App.sendMessage initial
    [Change hello; Submit; Change hello; Submit; FetchSettled 0 (inl TypeError)]
  = false /\
  option_map (fun s => (loading (ui s), List.length (inflight s)))
    (run App.sendMessage initial
       [Change hello; Submit; Change hello; Submit; FetchSettled 0 (inl TypeError)])
  = Some (false, 1).
Proof. split; reflexivity. Qed.

(** ** Failures *)

(** C6, the claim as it fails: a call answered with status 500 and a JSON
    body without an [answer] field appends an assistant message whose content
    is [undefined], not the fixed notice. *)
Lemma non_2xx_reply_is_not_the_notice :
  ok {| status := 500;
        json := inr (VObj [(str "detail", VStr (str "Internal Server Error"))]) |}
  = false /\
  run App.sendMessage initial
    [Change hello; Submit;
     FetchSettled 0
       (inr {| status := 500;
               json := inr (VObj [(str "detail", VStr (str "Internal Server Error"))]) |});
     JsonSettled 0]
  = Some {| ui := {| messages :=
                       [{| role := user; content := VStr (str "Hello") |};
                        {| role := assistant; content := VUndefined |}];
                     input := str "";
                     loading := false |};
            inflight := [];
            sent := [chat_request hello];
            unhandled := [] |} /\
  {| role := assistant; content := VUndefined |} <> error_message.
Proof.
  split; [reflexivity|]. split; [reflexivity | discriminate].
Qed.

(** C6, amended: a rejected [fetch] and a body that fails to parse (on any
    status, 2xx or not) end in the same outcome, the fixed assistant notice.
    The status itself is never read: a response whose body parses to a value
    with a readable [answer] appends that answer ([undefined] when the field
    is absent) whatever its status, non-2xx included. *)
Theorem failures_collapse_and_status_is_ignored (s : Session) (text : jsstring) :
  input (ui s) = text ->
  trim text <> [] ->
  (forall e,
      run App.sendMessage s
        (Submit :: failing (List.length (inflight s)) (FetchRejected e))
      = Some (completed text error_message s)) /\
  (forall st e,
      run App.sendMessage s
        (Submit :: failing (List.length (inflight s)) (JsonRejected st e))
      = Some (completed text error_message s)) /\
  (forall st data a,
      answer_of data = inr a ->
      run App.sendMessage s
        (Submit :: answered (List.length (inflight s))
                     {| status := st; json := inr data |})
      = Some (completed text (assistant_message a) s)).
Proof.
  intros <- H. split; [|split].
  - intros e. apply (submit_then_failing s _ H).
  - intros st e. apply (submit_then_failing s _ H).
  - intros st data a Ha.
    rewrite (submit_then_answered s _ H). simpl. rewrite Ha. reflexivity.
Qed.

Lemma failures_collapse_and_status_is_ignored_hello :
  (forall e,
      run App.sendMessage (set_input hello initial)
        (Submit :: failing 0 (FetchRejected e))
      = Some (completed hello error_message (set_input hello initial))) /\
  (forall st e,
      run App.sendMessage (set_input hello initial)
        (Submit :: failing 0 (JsonRejected st e))
      = Some (completed hello error_message (set_input hello initial))) /\
  (forall st data a,
      answer_of data = inr a ->
      run App.sendMessage (set_input hello initial)
        (Submit :: answered 0 {| status := st; json := inr data |})
      = Some (completed hello (assistant_message a) (set_input hello initial))).
Proof.
  apply (failures_collapse_and_status_is_ignored (set_input hello initial) hello).
  - reflexivity.
  - vm_compute. discriminate.
Defined.

(** ** History *)

Lemma run_appends (evs : list Event) (s s' : Session) :
  app_session s ->
  run App.sendMessage s evs = Some s' ->
  exists added, messages (ui s') = messages (ui s) ++ added /\
                List.length added <= List.length evs.
Proof.
  revert s. induction evs as [|ev evs IH]; intros s Hs; simpl.
  - intros H. inversion H; subst. exists []. rewrite app_nil_r.
    split; [reflexivity | simpl; lia].
  - destruct (handle App.sendMessage s ev) as [s1|] eqn:E; [|discriminate].
    intros H. pose proof (handle_app_step s ev s1 Hs E) as St.
    destruct (app_step_appends s ev s1 St) as (a1 & E1 & L1).
    destruct (IH s1 (app_step_session s ev s1 Hs St) H) as (a2 & E2 & L2).
    exists (a1 ++ a2). rewrite E2, E1, app_assoc.
    split; [reflexivity | rewrite length_app; lia].
Qed.

(** C7: the message list is append-only. From any session the component can
    reach, whatever events follow (edits, submissions, calls settling either
    way), the messages already there stay, each at its position, and the list
    is only extended at its end, by at most one message per event. *)
Theorem messages_are_append_only (before after : list Event) (s s' : Session) :
  run App.sendMessage initial before = Some s ->
  run App.sendMessage s after = Some s' ->
  exists added,
    messages (ui s') = messages (ui s) ++ added /\
    List.length added <= List.length after /\
    (forall i m, nth_error (messages (ui s)) i = Some m ->
                 nth_error (messages (ui s')) i = Some m).
Proof.
  intros Hb Ha.
  pose proof (run_app_session before initial s initial_app_session Hb) as Hs.
  destruct (run_appends after s s' Hs Ha) as (added & E & L).
  exists added. split; [exact E|]. split; [exact L|].
  intros i m Hi. rewrite E. rewrite nth_error_app1; [exact Hi|].
  apply nth_error_Some. congruence.
Qed.

Lemma messages_are_append_only_hello :
  exists added,
    messages (ui (finish error_message (set_inflight []
                    (exec (App.sendMessage hello) (set_input hello initial)))))
    = messages (ui (exec (App.sendMessage hello) (set_input hello initial)))
      ++ added /\
    List.length added <= 1 /\
    (forall i m,
        nth_error
          (messages (ui (exec (App.sendMessage hello) (set_input hello initial))))
          i = Some m ->
        nth_error
          (messages (ui (finish error_message (set_inflight []
                           (exec (App.sendMessage hello) (set_input hello initial))))))
          i = Some m).
Proof.
  apply (messages_are_append_only
           [Change hello; Submit] [FetchSettled 0 (inl TypeError)]
           (exec (App.sendMessage hello) (set_input hello initial))
           (finish error_message (set_inflight []
              (exec (App.sendMessage hello) (set_input hello initial))))).
  - reflexivity.
  - reflexivity.
Defined.

(** C8: a failure is not fatal. After a call has failed, in whichever way,
    the component is idle again ([loading] false, no call of that submission
    left in flight), the history has gained the user message and one error
    notice, exactly one request was sent (no retry), nothing was rejected
    towards the caller; and a next non-blank draft is submitted under the
    usual contract. *)
Theorem failure_is_not_fatal (s : Session) (text next : jsstring) (f : Failure) :
  input (ui s) = text ->
  trim text <> [] ->
  trim next <> [] ->
  exists failed,
    run App.sendMessage s (Submit :: failing (List.length (inflight s)) f)
    = Some failed /\
    loading (ui failed) = false /\
    inflight failed = inflight s /\
    messages (ui failed) = messages (ui s) ++ [user_message text; error_message] /\
    sent failed = sent s ++ [chat_request text] /\
    unhandled failed = unhandled s /\
    exists again k,
      run App.sendMessage failed [Change next; Submit] = Some again /\
      messages (ui again) = messages (ui failed) ++ [user_message next] /\
      input (ui again) = str "" /\
      loading (ui again) = true /\
      inflight again = inflight failed ++ [FetchPending (chat_request next) k] /\
      sent again = sent failed ++ [chat_request next] /\
      unhandled again = unhandled failed.
Proof.
  intros <- H Hnext.
  exists (completed (input (ui s)) error_message s).
  split; [apply (submit_then_failing s f H)|].
  repeat (split; [reflexivity|]).
  destruct (nonblank_submit next
              (set_input next (completed (input (ui s)) error_message s)) Hnext)
    as (k & _ & E).
  eexists. exists k.
  split; [unfold run, handle; simpl input; rewrite E; reflexivity|].
  repeat split; reflexivity.
Qed.

Lemma failure_is_not_fatal_hello :
  exists failed,
    run App.sendMessage (set_input hello initial)
      (Submit :: failing 0 (FetchRejected TypeError))
    = Some failed /\
    loading (ui failed) = false /\
    inflight failed = [] /\
    messages (ui failed) = [] ++ [user_message hello; error_message] /\
    sent failed = [] ++ [chat_request hello] /\
    unhandled failed = [] /\
    exists again k,
      run App.sendMessage failed [Change (str "again"); Submit] = Some again /\
      messages (ui again) = messages (ui failed) ++ [user_message (str "again")] /\
      input (ui again) = str "" /\
      loading (ui again) = true /\
      inflight again = inflight failed ++ [FetchPending (chat_request (str "again")) k] /\
      sent again = sent failed ++ [chat_request (str "again")] /\
      unhandled again = unhandled failed.
Proof.
  apply (failure_is_not_fatal (set_input hello initial) hello (str "again")
           (FetchRejected TypeError)).
  - reflexivity.
  - vm_compute. discriminate.
  - vm_compute. discriminate.
Defined.

(** ** What is sent *)

(** C9: trimming serves the emptiness test only. For a draft with leading or
    trailing white space whose trimmed form is not empty, the user message
    and the [query] of the request both carry the draft as typed, which is
    not its trimmed form; and the request, still pending, keeps that text
    although the draft is already cleared. *)
Theorem raw_draft_is_appended_and_sent (s : Session) (text : jsstring) :
  input (ui s) = text ->
  trim text <> [] ->
  trim text <> text ->
  exists s' k,
    handle App.sendMessage s Submit = Some s' /\
    messages (ui s') = messages (ui s) ++ [{| role := user; content := VStr text |}] /\
    {| role := user; content := VStr text |} <> user_message (trim text) /\
    sent s' = sent s ++ [chat_request text] /\
    body (chat_request text) = VObj [(str "query", VStr text)] /\
    body (chat_request text) <> body (chat_request (trim text)) /\
    inflight s' = inflight s ++ [FetchPending (chat_request text) k] /\
    input (ui s') = str "".
Proof.
  intros <- H Hraw. destruct (nonblank_submit _ s H) as (k & _ & E).
  exists (submitted (input (ui s)) k s), k.
  split; [simpl; rewrite E; reflexivity|].
  split; [reflexivity|].
  split; [intros C; inversion C; congruence|].
  split; [reflexivity|]. split; [reflexivity|].
  split; [intros C; inversion C; congruence|].
  split; reflexivity.
Qed.

Lemma raw_draft_is_appended_and_sent_padded :
  trim padded = str "X" /\
  exists s' k,
    handle App.sendMessage (set_input padded initial) Submit = Some s' /\
    messages (ui s') = [] ++ [{| role := user; content := VStr (str "  X  ") |}] /\
    {| role := user; content := VStr padded |} <> user_message (trim padded) /\
    sent s' = [] ++ [chat_request padded] /\
    body (chat_request padded) = VObj [(str "query", VStr (str "  X  "))] /\
    body (chat_request padded) <> body (chat_request (trim padded)) /\
    inflight s' = [] ++ [FetchPending (chat_request padded) k] /\
    input (ui s') = str "".
Proof.
  split; [reflexivity|].
  apply (raw_draft_is_appended_and_sent (set_input padded initial) padded).
  - reflexivity.
  - vm_compute. discriminate.
  - vm_compute. discriminate.
Defined.

(** ** The [Chat] component against [App] *)

Lemma chat_nonblank_submit (text : jsstring) (s : Session) :
  trim text <> [] ->
  exists k, chat_fetch_rest k /\ exec (Chat.sendMessage text) s = submitted text k s.
Proof.
  intros H. unfold Chat.sendMessage. rewrite (not_string_nonblank text H).
  cbn. eexists. split; [|reflexivity].
  split.
  - intros e s'. reflexivity.
  - intros res s'. cbn. eexists. split; [|reflexivity].
    intros [e|data] s''; cbn; [reflexivity|].
    destruct (answer_of data); reflexivity.
Qed.

(** With a body whose [answer] can be read, [Chat] ends as [App] does. *)
Lemma chat_agrees_when_answered (s : Session) (st : N) (data a : value) :
  trim (input (ui s)) <> [] ->
  answer_of data = inr a ->
  run Chat.sendMessage s
    (Submit :: answered (List.length (inflight s)) {| status := st; json := inr data |})
  = run App.sendMessage s
      (Submit :: answered (List.length (inflight s)) {| status := st; json := inr data |}).
Proof.
  intros H Ha. rewrite (submit_then_answered s _ H).
  destruct (chat_nonblank_submit _ s H) as (k & [_ Hres] & E).
  unfold answered, run, handle. rewrite E. simpl inflight.
  rewrite take_task_last.
  destruct (Hres {| status := st; json := inr data |}
              (set_inflight (inflight s) (submitted (input (ui s)) k s)))
    as (k' & Hk' & ->).
  simpl inflight. rewrite take_task_last. rewrite Hk'. simpl json.
  cbv beta iota. unfold reply_of. rewrite Ha.
  unfold finish, completed, set_loading, set_messages. simpl.
  rewrite <- app_assoc. reflexivity.
Qed.

Lemma chat_agrees_when_answered_42 :
  run Chat.sendMessage (set_input hello initial)
    (Submit :: answered 0 (answering 200 (VStr (str "42"))))
  = run App.sendMessage (set_input hello initial)
      (Submit :: answered 0 (answering 200 (VStr (str "42")))).
Proof.
  apply (chat_agrees_when_answered (set_input hello initial) 200
           (VObj [(str "answer", VStr (str "42"))]) (VStr (str "42"))).
  - vm_compute. discriminate.
  - reflexivity.
Defined.



(** C10, on the code: submitting "Hello" against a backend whose [fetch]
    rejects, [App] ends with the error notice and [loading] false, while
    [Chat] ends with the user message alone, [loading] still true and the
    rejection unhandled. *)
Theorem chat_and_app_differ_on_failure :
  run App.sendMessage initial [Change hello; Submit; FetchSettled 0 (inl TypeError)]
  = Some {| ui := {| messages :=
                       [{| role := user; content := VStr (str "Hello") |};
                        {| role := assistant;
                           content := VStr (str "Error: Could not get response.") |}];
                     input := str "";
                     loading := false |};
            inflight := [];
            sent := [chat_request hello];
            unhandled := [] |} /\
  run Chat.sendMessage initial [Change hello; Submit; FetchSettled 0 (inl TypeError)]
  = Some {| ui := {| messages := [{| role := user; content := VStr (str "Hello") |}];
                     input := str "";
                     loading := true |};
            inflight := [];
            sent := [chat_request hello];
            unhandled := [TypeError] |}.
Proof.
  split; reflexivity.
Qed.

(** ** Accounts kept by every session of [App] *)

Lemma role_reply_of (o : exn + value) : role (reply_of o) = assistant.
Proof.
  destruct o as [e|data]; simpl; [reflexivity|].
  destruct (answer_of data); reflexivity.
Qed.

Lemma count_role_app (r : Role) (l l' : list Message) :
  count_role r (l ++ l') = count_role r l + count_role r l'.
Proof. unfold count_role. rewrite filter_app, length_app. reflexivity. Qed.

Lemma user_texts_app (l l' : list Message) :
  user_texts (l ++ l') = user_texts l ++ user_texts l'.
Proof. unfold user_texts. apply flat_map_app. Qed.

(** Appending an assistant message moves no account but the assistant's. *)
Lemma accounted_reply (s : Session) (m : Message) (rest : list Task) :
  role m = assistant ->
  List.length (inflight s) = S (List.length rest) ->
  accounted s ->
  accounted (finish m (set_inflight rest s)).
Proof.
  intros Hm L (Hsent & Hcount & Hun & Hall).
  unfold accounted. simpl.
  rewrite user_texts_app, !count_role_app.
  unfold user_texts at 2, count_role at 2 4. simpl. rewrite Hm. simpl.
  rewrite app_nil_r.
  split; [exact Hsent|]. split; [lia|]. split; [exact Hun|].
  apply Forall_app. split; [exact Hall|].
  constructor; [|constructor]. intros C. congruence.
Qed.

Lemma app_step_accounted (s : Session) (ev : Event) (s' : Session) :
  accounted s -> app_step s ev s' -> accounted s'.
Proof.
  intros Ha St.
  destruct St as [v| |k T Hk|i rq k rest e E|i rq k rest res k' E Hk'|i res k rest E].
  - exact Ha.
  - exact Ha.
  - destruct Ha as (Hsent & Hcount & Hun & Hall).
    unfold accounted. simpl.
    rewrite user_texts_app, !count_role_app, map_app, !length_app, Hsent.
    change (count_role assistant [user_message (input (ui s))]) with 0.
    change (count_role user [user_message (input (ui s))]) with 1.
    simpl. split; [reflexivity|]. split; [lia|]. split; [exact Hun|].
    apply Forall_app. split; [exact Hall|].
    constructor; [|constructor]. intros _. exists (input (ui s)).
    split; [reflexivity | exact T].
  - apply accounted_reply; [reflexivity| |exact Ha].
    apply (take_task_length _ _ _ _ E).
  - destruct Ha as (Hsent & Hcount & Hun & Hall).
    pose proof (take_task_length _ _ _ _ E) as L.
    unfold accounted. simpl. rewrite length_app. simpl.
    split; [exact Hsent|]. split; [lia|]. split; assumption.
  - apply accounted_reply; [apply role_reply_of| |exact Ha].
    apply (take_task_length _ _ _ _ E).
Qed.

Lemma initial_accounted : accounted initial.
Proof.
  unfold accounted. simpl. repeat split. constructor.
Qed.

Lemma run_accounted (evs : list Event) (s s' : Session) :
  app_session s -> accounted s ->
  run App.sendMessage s evs = Some s' ->
  accounted s'.
Proof.
  revert s. induction evs as [|ev evs IH]; intros s Hs Ha; simpl.
  - intros H. inversion H; subst. exact Ha.
  - destruct (handle App.sendMessage s ev) as [s1|] eqn:E; [|discriminate].
    intros H. pose proof (handle_app_step s ev s1 Hs E) as St.
    apply (IH s1); [|  |exact H].
    + apply (app_step_session s ev s1 Hs St).
    + apply (app_step_accounted s ev s1 Ha St).
Qed.

(** The requests sent are the user messages of the history, one for one and
    in order, each carrying its message's text as [query]; and they all go
    out as the same [POST] to the same address. *)
Theorem requests_mirror_user_messages (evs : list Event) (s : Session) :
  run App.sendMessage initial evs = Some s ->
  sent s = map chat_request (user_texts (messages (ui s))).
Proof.
  intros H.
  apply (run_accounted evs initial s initial_app_session initial_accounted H).
Qed.

Lemma requests_mirror_user_messages_hello :
  sent (completed hello error_message (set_input hello initial))
  = map chat_request
      (user_texts (messages (ui (completed hello error_message (set_input hello initial))))).
Proof.
  apply (requests_mirror_user_messages
           [Change hello; Submit; FetchSettled 0 (inl TypeError)]).
  reflexivity.
Defined.

(** No question is lost or answered twice, however calls overlap: at any
    time the assistant messages and the calls in flight together number the
    user messages. *)
Theorem every_question_is_answered_once (evs : list Event) (s : Session) :
  run App.sendMessage initial evs = Some s ->
  count_role assistant (messages (ui s)) + List.length (inflight s)
  = count_role user (messages (ui s)).
Proof.
  intros H.
  apply (run_accounted evs initial s initial_app_session initial_accounted H).
Qed.

Lemma every_question_is_answered_once_hello :
  count_role assistant
    (messages (ui (completed hello error_message (set_input hello initial))))
  + List.length (inflight (completed hello error_message (set_input hello initial)))
  = count_role user
      (messages (ui (completed hello error_message (set_input hello initial)))).
Proof.
  apply (every_question_is_answered_once
           [Change hello; Submit; FetchSettled 0 (inl TypeError)]).
  reflexivity.
Defined.

(** The promise of [App.sendMessage] never rejects: whatever the network
    does and however calls overlap, no session holds an unhandled rejection. *)
Theorem app_never_rejects (evs : list Event) (s : Session) :
  run App.sendMessage initial evs = Some s ->
  unhandled s = [].
Proof.
  intros H.
  apply (run_accounted evs initial s initial_app_session initial_accounted H).
Qed.

Lemma app_never_rejects_null_body :
  unhandled (completed hello error_message (set_input hello initial)) = [].
Proof.
  apply (app_never_rejects
           (Change hello :: Submit :: failing 0 (NullBody 200))).
  reflexivity.
Defined.

(** Whatever a backend answers, a message of role user in the history is
    text the user typed: its content is a string, and not a blank one. *)
Theorem user_messages_are_typed_text (evs : list Event) (s : Session)
    (m : Message) :
  run App.sendMessage initial evs = Some s ->
  In m (messages (ui s)) ->
  role m = user ->
  exists text, content m = VStr text /\ trim text <> [].
Proof.
  intros H Hin.
  destruct (run_accounted evs initial s initial_app_session initial_accounted H)
    as (_ & _ & _ & Hall).
  rewrite Forall_forall in Hall. apply (Hall m Hin).
Qed.

Lemma user_messages_are_typed_text_hello :
  exists text, content (user_message hello) = VStr text /\ trim text <> [].
Proof.
  apply (user_messages_are_typed_text
           [Change hello; Submit; FetchSettled 0 (inr (answering 200 VNull));
            JsonSettled 0]
           (completed hello (assistant_message VNull) (set_input hello initial))
           (user_message hello)).
  - reflexivity.
  - left. reflexivity.
  - reflexivity.
Defined.

(** ** The history through the form *)

Lemma paired_app (l l' : list Message) :
  paired l = true -> paired (l ++ l') = paired l'.
Proof.
  assert (P : forall l : list Message,
             (paired l = true -> paired (l ++ l') = paired l') /\
             (forall x, paired (x :: l) = true ->
                        paired ((x :: l) ++ l') = paired l')).
  { clear l. induction l as [|a l [IH1 IH2]].
    - split; [reflexivity | discriminate].
    - split; [apply IH2|].
      intros x H. simpl in H |- *.
      destruct (role_eqb (role x) user && role_eqb (role a) assistant);
        [simpl in H |- *; apply IH1; exact H | discriminate]. }
  apply P.
Qed.

Lemma paired_exchange (l : list Message) (text : jsstring) (m : Message) :
  paired l = true -> role m = assistant ->
  paired ((l ++ [user_message text]) ++ [m]) = true.
Proof.
  intros Hl Hm. rewrite <- app_assoc. rewrite (paired_app l _ Hl).
  simpl. rewrite Hm. reflexivity.
Qed.

Lemma history_reply (s : Session) (m : Message) (rest : list Task) :
  role m = assistant ->
  loading (ui s) = true ->
  history_in_pairs s ->
  history_in_pairs (finish m (set_inflight rest s)).
Proof.
  unfold history_in_pairs. intros Hm Hl H. rewrite Hl in H.
  destruct H as (l & text & E & Hp). simpl. rewrite E.
  apply paired_exchange; assumption.
Qed.

Lemma app_step_history (s : Session) (ev : Event) (s' : Session) :
  single_flight s ->
  history_in_pairs s ->
  deliverable s ev = true ->
  app_step s ev s' ->
  history_in_pairs s'.
Proof.
  intros (_ & _ & Hbusy) Hh Hd St.
  destruct St as [v| |k T Hk|i rq k rest e E|i rq k rest res k' E Hk'|i res k rest E].
  - exact Hh.
  - exact Hh.
  - simpl in Hd. apply negb_true_iff in Hd.
    unfold history_in_pairs in Hh |- *. rewrite Hd in Hh. simpl.
    exists (messages (ui s)), (input (ui s)). split; [reflexivity | exact Hh].
  - apply history_reply; [reflexivity| |exact Hh].
    apply Hbusy. intros C. rewrite C in E. destruct i; discriminate.
  - exact Hh.
  - apply history_reply; [apply role_reply_of| |exact Hh].
    apply Hbusy. intros C. rewrite C in E. destruct i; discriminate.
Qed.

(** An action on the page is either ignored or one event the form lets through. *)
Lemma act_is_event (s : Session) (a : Action) (s' : Session) :
  act App.sendMessage s a = Some s' ->
  s' = s \/
  exists ev, deliverable s ev = true /\ handle App.sendMessage s ev = Some s'.
Proof.
  destruct a as [v| |i o|i]; unfold act.
  - unfold ChatInput.types, ChatInput.ChatInput, view. simpl.
    destruct (loading (ui s)) eqn:L; intros H; inversion H; subst.
    + left. reflexivity.
    + right. exists (Change v). split; reflexivity.
  - unfold ChatInput.submits, ChatInput.ChatInput, view. simpl.
    destruct (loading (ui s)) eqn:L; intros H; inversion H; subst.
    + left. reflexivity.
    + right. exists Submit. split; [simpl; rewrite L; reflexivity | reflexivity].
  - intros H. right. exists (FetchSettled i o). split; [reflexivity | exact H].
  - intros H. right. exists (JsonSettled i). split; [reflexivity | exact H].
Qed.

Lemma acts_through_form (l : list Action) (s s' : Session) :
  single_flight s -> history_in_pairs s ->
  acts App.sendMessage s l = Some s' ->
  single_flight s' /\ history_in_pairs s'.
Proof.
  revert s. induction l as [|a l IH]; intros s Hs Hh; simpl.
  - intros H. inversion H; subst. split; assumption.
  - destruct (act App.sendMessage s a) as [s1|] eqn:E; [|discriminate].
    intros H. destruct (act_is_event s a s1 E) as [->|(ev & Hd & He)].
    + apply (IH s Hs Hh H).
    + pose proof (handle_app_step s ev s1 (proj1 Hs) He) as St.
      apply (IH s1); [| |exact H].
      * apply (app_step_single_flight s ev s1 Hs Hd St).
      * apply (app_step_history s ev s1 Hs Hh Hd St).
Qed.

Lemma initial_history : history_in_pairs initial.
Proof. reflexivity. Qed.

(** ** The page *)

Lemma in_map_indexed {A B : Type} (f : A -> nat -> B) (l : list A) (k : nat) (b : B) :
  In b (map_indexed f k l) -> exists x idx, b = f x idx.
Proof.
  revert k. induction l as [|x l IH]; intros k; simpl; [intros []|].
  intros [<-|H]; [exists x, k; reflexivity | apply (IH _ H)].
Qed.

Lemma nth_error_map_indexed {A B : Type} (f : A -> nat -> B) (l : list A)
    (k i : nat) (x : A) :
  nth_error l i = Some x ->
  nth_error (map_indexed f k l) i = Some (f x (k + i)).
Proof.
  revert k i. induction l as [|y l IH]; intros k i; [destruct i; discriminate|].
  destruct i as [|i]; simpl.
  - intros H. inversion H; subst. rewrite Nat.add_0_r. reflexivity.
  - intros H. rewrite (IH (S k) i H). f_equal. f_equal. lia.
Qed.

Lemma length_map_indexed {A B : Type} (f : A -> nat -> B) (l : list A) (k : nat) :
  List.length (map_indexed f k l) = List.length l.
Proof.
  revert k. induction l as [|x l IH]; intros k; simpl; [reflexivity|].
  rewrite IH. reflexivity.
Qed.

Lemma loader_shown_iff_loading (sendMessage : jsstring -> Async unit) (st : State) :
  In ChatLoader (container (view sendMessage st)) <-> loading st = true.
Proof.
  unfold view. simpl. rewrite !in_app_iff. split.
  - intros [H|[H|H]].
    + apply in_map_indexed in H. destruct H as (x & idx & C). discriminate C.
    + destruct (loading st); [reflexivity | destruct H].
    + destruct H as [C|[]]. discriminate C.
  - intros ->. right. left. left. reflexivity.
Qed.

(** Driven through the page, the component never has two calls in flight;
    the loader is on screen, and the form disabled, exactly while one is. *)
Theorem page_shows_one_call_in_flight (l : list Action) (s : Session) :
  acts App.sendMessage initial l = Some s ->
  List.length (inflight s) <= 1 /\
  (In ChatLoader (container (view App.sendMessage (ui s))) <-> inflight s <> []) /\
  (ChatInput.disabled (chatInput (view App.sendMessage (ui s))) = true <->
   inflight s <> []).
Proof.
  intros H.
  destruct (acts_through_form l initial s initial_single_flight initial_history H)
    as [(_ & Hlen & Hbusy) _].
  split; [exact Hlen|]. split.
  - rewrite loader_shown_iff_loading. exact Hbusy.
  - exact Hbusy.
Qed.

Lemma page_shows_one_call_in_flight_hello :
  List.length (inflight (exec (App.sendMessage hello) (set_input hello initial))) <= 1 /\
  (In ChatLoader
     (container (view App.sendMessage
        (ui (exec (App.sendMessage hello) (set_input hello initial))))) <->
   inflight (exec (App.sendMessage hello) (set_input hello initial)) <> []) /\
  (ChatInput.disabled
     (chatInput (view App.sendMessage
        (ui (exec (App.sendMessage hello) (set_input hello initial))))) = true <->
   inflight (exec (App.sendMessage hello) (set_input hello initial)) <> []).
Proof.
  apply (page_shows_one_call_in_flight
           [UserTypes hello; UserSubmits; UserTypes padded; UserSubmits]).
  reflexivity.
Defined.

(** Driven through the page, the history is a run of question and answer
    pairs, user message first, followed by the one pending question exactly
    while a call is in flight. *)
Theorem page_history_is_question_answer_pairs (l : list Action) (s : Session) :
  acts App.sendMessage initial l = Some s ->
  (inflight s = [] -> paired (messages (ui s)) = true) /\
  (inflight s <> [] ->
   exists pairs text,
     messages (ui s) = pairs ++ [user_message text] /\ paired pairs = true).
Proof.
  intros H.
  destruct (acts_through_form l initial s initial_single_flight initial_history H)
    as [(_ & _ & Hbusy) Hh].
  unfold history_in_pairs in Hh. split.
  - intros E. destruct (loading (ui s)) eqn:L; [|exact Hh].
    exfalso. apply (proj1 Hbusy); [reflexivity | exact E].
  - intros E. apply Hbusy in E. rewrite E in Hh. exact Hh.
Qed.

Lemma page_history_is_question_answer_pairs_hello :
  (inflight (completed hello error_message (set_input hello initial)) = [] ->
   paired (messages (ui (completed hello error_message (set_input hello initial))))
   = true) /\
  (inflight (completed hello error_message (set_input hello initial)) <> [] ->
   exists pairs text,
     messages (ui (completed hello error_message (set_input hello initial)))
     = pairs ++ [user_message text] /\ paired pairs = true).
Proof.
  apply (page_history_is_question_answer_pairs
           [UserTypes hello; UserSubmits; FetchSettles 0 (inl TypeError)]).
  reflexivity.
Defined.

(** The index is a sound key: the bubble of the [i]-th message is the [i]-th
    child of the container, keyed [i], and stays so, with the same role and
    content, in every later view. *)
Theorem bubbles_keep_key_and_place (before after : list Event) (s s' : Session)
    (i : nat) (m : Message) :
  run App.sendMessage initial before = Some s ->
  run App.sendMessage s after = Some s' ->
  nth_error (messages (ui s)) i = Some m ->
  nth_error (container (view App.sendMessage (ui s))) i
  = Some (MessageBubble i (role m) (content m)) /\
  nth_error (container (view App.sendMessage (ui s'))) i
  = Some (MessageBubble i (role m) (content m)).
Proof.
  intros Hb Ha Hi.
  pose proof (run_app_session before initial s initial_app_session Hb) as Hs.
  destruct (run_appends after s s' Hs Ha) as (added & E & _).
  assert (Hi' : nth_error (messages (ui s')) i = Some m).
  { rewrite E. rewrite nth_error_app1; [exact Hi|].
    apply nth_error_Some. congruence. }
  assert (K : forall st, nth_error (messages st) i = Some m ->
              nth_error (container (view App.sendMessage st)) i
              = Some (MessageBubble i (role m) (content m))).
  { intros st Hst. unfold view. simpl container.
    rewrite nth_error_app1.
    - apply (nth_error_map_indexed
               (fun msg idx => MessageBubble idx (role msg) (content msg))
               (messages st) 0 i m Hst).
    - rewrite length_map_indexed. apply nth_error_Some. congruence. }
  split; apply K; assumption.
Qed.

Lemma bubbles_keep_key_and_place_hello :
  nth_error
    (container (view App.sendMessage
       (ui (exec (App.sendMessage hello) (set_input hello initial))))) 0
  = Some (MessageBubble 0 user (VStr hello)) /\
  nth_error
    (container (view App.sendMessage
       (ui (completed hello error_message (set_input hello initial))))) 0
  = Some (MessageBubble 0 user (VStr hello)).
Proof.
  apply (bubbles_keep_key_and_place
           [Change hello; Submit] [FetchSettled 0 (inl TypeError)]
           (exec (App.sendMessage hello) (set_input hello initial))
           (completed hello error_message (set_input hello initial))
           0 (user_message hello)).
  - reflexivity.
  - reflexivity.
  - reflexivity.
Defined.

(** What the user typed last is what is sent: on an idle page, typing [v]
    (not blank) and submitting appends the user message [v] and issues the
    call with [query = v], without starting the page afresh; on a loading
    page both actions are ignored. *)
Theorem typed_text_is_what_is_sent (s : Session) (v : jsstring) :
  trim v <> [] ->
  (loading (ui s) = false ->
   exists k,
     acts App.sendMessage s [UserTypes v; UserSubmits]
     = Some (submitted v k (set_input v s))) /\
  (loading (ui s) = true ->
   acts App.sendMessage s [UserTypes v; UserSubmits] = Some s).
Proof.
  intros H. split; intros L.
  - destruct (nonblank_submit v (set_input v s) H) as (k & _ & E).
    exists k. unfold acts, act, ChatInput.types, ChatInput.submits,
      ChatInput.ChatInput, view.
    simpl. rewrite L. simpl. rewrite L. rewrite <- E. reflexivity.
  - unfold acts, act, ChatInput.types, ChatInput.submits,
      ChatInput.ChatInput, view.
    simpl. rewrite L. simpl. rewrite L. reflexivity.
Qed.

Lemma typed_text_is_what_is_sent_hello :
  (loading (ui initial) = false ->
   exists k,
     acts App.sendMessage initial [UserTypes hello; UserSubmits]
     = Some (submitted hello k (set_input hello initial))) /\
  (loading (ui initial) = true ->
   acts App.sendMessage initial [UserTypes hello; UserSubmits] = Some initial).
Proof.
  apply (typed_text_is_what_is_sent initial hello).
  vm_compute. discriminate.
Defined.

(** ** The page of [Chat] after a failure *)






(** ** Overlapping calls *)

(** Replies land in the order the calls complete, not the order they were
    submitted: whichever call in flight settles, its reply (the notice when
    its fetch is rejected, what its body gives once that is read) goes to
    the end of the history as it then stands. *)
Theorem replies_land_in_completion_order (evs : list Event) (s : Session)
    (i : nat) (e : exn) :
  run App.sendMessage initial evs = Some s ->
  match take_task i (inflight s) with
  | Some (FetchPending _ _, _) =>
      option_map (fun s' => messages (ui s'))
        (handle App.sendMessage s (FetchSettled i (inl e)))
      = Some (messages (ui s) ++ [error_message])
  | Some (JsonPending res _, _) =>
      option_map (fun s' => messages (ui s'))
        (handle App.sendMessage s (JsonSettled i))
      = Some (messages (ui s) ++ [reply_of (json res)])
  | None =>
      handle App.sendMessage s (FetchSettled i (inl e)) = None /\
      handle App.sendMessage s (JsonSettled i) = None
  end.
Proof.
  intros H.
  pose proof (run_app_session evs initial s initial_app_session H) as Hs.
  unfold handle.
  destruct (take_task i (inflight s)) as [[[rq k|res k] rest]|] eqn:E.
  - destruct (take_task_Forall app_task _ _ _ _ E Hs) as [[Hrej _] _].
    rewrite Hrej. reflexivity.
  - destruct (take_task_Forall app_task _ _ _ _ E Hs) as [Hk _].
    rewrite Hk. reflexivity.
  - split; reflexivity.
Qed.

Lemma replies_land_in_completion_order_second_first :
  option_map (fun s' => messages (ui s'))
    (handle App.sendMessage
       (exec (App.sendMessage padded)
          (set_input padded (exec (App.sendMessage hello) (set_input hello initial))))
       (FetchSettled 1 (inl TypeError)))
  = Some ([user_message hello; user_message padded] ++ [error_message]).
Proof.
  apply (replies_land_in_completion_order
           [Change hello; Submit; Change padded; Submit]
           (exec (App.sendMessage padded)
              (set_input padded (exec (App.sendMessage hello) (set_input hello initial))))
           1 TypeError).
  reflexivity.
Defined.
